(** * express-oauth-server: the Express adapter of the OAuth2 engine

    A shallow embedding of [src/index.js] and the properties of its
    specification.

    The file [src/index.js] holds two copies of the module.  Lines 1-212
    are the module itself; its definitions are embedded at the top level
    of this development under their source names.  Lines 214-415, after
    the separator line 213, are a second copy of the same module, which
    differs in places; it is embedded in [Module SecondCopy], so that the
    two can be compared.

    Both copies run in sloppy mode (there is no ['use strict']
    directive), so a function called without a receiver sees the global
    object as [this].  The development keeps that receiver explicit. *)

From stdpp Require Import gmap strings list fin_maps.
From Stdlib Require Import ZArith.

Local Open Scope Z_scope.
Local Open Scope string_scope.
Local Open Scope list_scope.

(** ** JavaScript values *)

(** The values that flow through the adapter.  [VObj] is an object
    literal with its entries in source order; [VHost] stands for an object
    the adapter passes around without looking inside (the engine instance,
    the persistence model, the Express response). *)
#[warnings="-register-all"]
Inductive JSVal : Type :=
| VUndefined
| VNull
| VBool (b : bool)
| VNum (n : Z)
| VStr (s : string)
| VObj (entries : list (string * JSVal))
| VHost (label : string).

(** An object used as a property bag: [o.k] is [o !! k], with [None]
    for [undefined]. *)
Abbreviation Obj := (gmap string JSVal).
Abbreviation Headers := (gmap string string).

(** ToBoolean, for [!x], [x ? a : b] and [if (x)]. *)
Definition truthy (v : JSVal) : bool :=
  match v with
  | VUndefined | VNull => false
  | VBool b => b
  | VNum n => negb (Z.eqb n 0)
  | VStr s => negb (String.eqb s "")
  | VObj _ | VHost _ => true
  end.

(** [o.k] read as a condition: a missing property is [undefined]. *)
Definition prop_truthy (o : Obj) (k : string) : bool :=
  match o !! k with
  | Some v => truthy v
  | None => false
  end.

(** [o.k === true] *)
Definition prop_is_true (o : Obj) (k : string) : bool :=
  match o !! k with
  | Some (VBool true) => true
  | _ => false
  end.

(** [v === 302] *)
Definition is_302 (v : JSVal) : bool :=
  match v with
  | VNum n => Z.eqb n 302
  | _ => false
  end.

(** ** The error taxonomy *)

(** The classes the adapter tests with [instanceof] (lines 6, 11, 12),
    and one tag for every other error the engine may raise. *)
Inductive ErrorKind : Type :=
| InvalidArgumentError
| UnauthorizedRequestError
| InvalidTokenError
| OtherError.

Record Error : Type := mkError {
  kind : ErrorKind;
  code : Z;
  name : string;
  message : string
}.

(** [e instanceof UnauthorizedRequestError] *)
Definition instanceof_UnauthorizedRequestError (e : Error) : bool :=
  match kind e with UnauthorizedRequestError => true | _ => false end.

(** [e instanceof InvalidTokenError] *)
Definition instanceof_InvalidTokenError (e : Error) : bool :=
  match kind e with InvalidTokenError => true | _ => false end.

(** ** Protocol response *)

Record Response : Type := mkResponse {
  status : JSVal;
  headers : Headers;
  body : JSVal
}.

(** Modelled from the spec: the constructor of the engine's [Response]
    class (package oauth2-server) is not part of this repository; the
    data model gives its initial state as empty headers with undefined
    status and body. *)
Definition Response_new : Response :=
  {| status := VUndefined; headers := ∅; body := VUndefined |}.

(** ** Effects *)

(** What a middleware does to the outside, in order: the calls on the
    Express response [res], the assignments to [res.locals], and the calls
    of [next]. *)
Inductive Effect : Type :=
| ResSet (h : Headers)                (* res.set(headers) *)
| ResStatus (c : JSVal)               (* res.status(c) *)
| ResSend (b : JSVal)                 (* .send(b); .send() sends undefined *)
| ResRedirect (location : option string)  (* res.redirect(location) *)
| LocalsWrite (k : string) (v : JSVal)    (* res.locals.k = v *)
| Next (arg : option Error).          (* next() and next(e) *)

(** ** The store *)

(** [globalThis] and [instance] outlive a request: the global object of
    the process and the adapter object built by the constructor.
    [response], [locals] and [effects] belong to the request in hand: the
    protocol response created at line 44, [res.locals], and the log of
    effects, oldest first. *)
Record World : Type := mkWorld {
  globalThis : Obj;
  instance : Obj;
  response : Response;
  locals : Obj;
  effects : list Effect
}.

Definition emit (x : Effect) (w : World) : World :=
  {| globalThis := globalThis w; instance := instance w;
     response := response w; locals := locals w;
     effects := effects w ++ [x] |}.

Definition with_response (r : Response) (w : World) : World :=
  {| globalThis := globalThis w; instance := instance w;
     response := r; locals := locals w; effects := effects w |}.

Definition with_locals (l : Obj) (w : World) : World :=
  {| globalThis := globalThis w; instance := instance w;
     response := response w; locals := l; effects := effects w |}.

Definition with_instance (i : Obj) (w : World) : World :=
  {| globalThis := globalThis w; instance := i;
     response := response w; locals := locals w; effects := effects w |}.

(** The receiver of a call: [Unbound] for a plain call [f(...)], whose
    [this] is the global object; [Bound] for a call that hands on the
    adapter, as [f.call(this, ...)] inside a function bound to it. *)
Inductive Receiver : Type := Unbound | Bound.

Definition this_of (r : Receiver) (w : World) : Obj :=
  match r with
  | Unbound => globalThis w
  | Bound => instance w
  end.

(** ** Promise chains *)

Inductive Settled (A : Type) : Type :=
| Fulfilled (v : A)
| Rejected (e : Error).
Arguments Fulfilled {A} v.
Arguments Rejected {A} e.

(** A chain run to settlement: it transforms the store and settles. *)
Definition Promise (A : Type) : Type := World -> World * Settled A.

Definition resolve {A} (v : A) : Promise A := fun w => (w, Fulfilled v).

(** One statement of a handler body that has an effect and goes on. *)
Definition perform (f : World -> World) : Promise unit :=
  fun w => (f w, Fulfilled tt).

(** [p.then(f)]: [f] runs on fulfilment, a rejection passes through. *)
Definition then_ {A B} (p : Promise A) (f : A -> Promise B) : Promise B :=
  fun w =>
    match p w with
    | (w', Fulfilled v) => f v w'
    | (w', Rejected e) => (w', Rejected e)
    end.

(** [p.tap(f)]: as [then], but the chain keeps the value it had. *)
Definition tap {A B} (p : Promise A) (f : A -> Promise B) : Promise A :=
  then_ p (fun v => then_ (f v) (fun _ => resolve v)).

(** [p.catch(h)]: [h] runs on rejection, a fulfilment passes through. *)
Definition catch_ {A} (p : Promise A) (h : Error -> Promise A) : Promise A :=
  fun w =>
    match p w with
    | (w', Fulfilled v) => (w', Fulfilled v)
    | (w', Rejected e) => h e w'
    end.

(** [p.finally(h)]: [h] runs without argument however [p] settled, and
    the chain keeps the settlement of [p] unless [h] itself fails. *)
Definition finally_ {A B} (p : Promise A) (h : Promise B) : Promise A :=
  fun w =>
    match p w with
    | (w', s) =>
        match h w' with
        | (w'', Fulfilled _) => (w'', s)
        | (w'', Rejected e) => (w'', Rejected e)
        end
    end.

Notation "p ;;; q" := (then_ p (fun _ => q))
  (at level 100, right associativity).

(** [next()] and [next(e)] *)
Definition call_next (arg : option Error) : Promise unit :=
  perform (emit (Next arg)).

(** [res.locals.k = v] *)
Definition set_local (k : string) (v : JSVal) : Promise unit :=
  perform (fun w => emit (LocalsWrite k v) (with_locals (<[k := v]> (locals w)) w)).

(** ** Handle response (lines 160-172; the same text at 364-376) *)

Definition handleResponse : Promise JSVal :=
  fun w =>
    let r := response w in
    if is_302 (status r) then
      let location := headers r !! "location" in
      let r' := {| status := status r;
                   headers := delete "location" (headers r);
                   body := body r |} in
      (perform (with_response r') ;;;
       perform (emit (ResSet (headers r'))) ;;;
       perform (emit (ResRedirect location)) ;;;
       resolve VUndefined) w
    else
      (perform (emit (ResSet (headers r))) ;;;
       perform (emit (ResStatus (status r))) ;;;
       perform (emit (ResSend (body r))) ;;;
       resolve VUndefined) w.

(** ** Handle error (lines 178-206) *)

(** [this_] is the receiver the call was made with; [supplied] tells
    whether the [response] argument was the protocol response or [null]. *)
Definition handleError (this_ : Receiver) (e : Error) (supplied : bool)
  : Promise JSVal :=
  fun w =>
    if prop_is_true (this_of this_ w) "useErrorHandler" then
      (call_next (Some e) ;;; resolve VUndefined) w
    else
      ((if supplied then perform (emit (ResSet (headers (response w))))
        else resolve tt) ;;;
       if instanceof_UnauthorizedRequestError e then
         perform (emit (ResStatus (VNum (code e)))) ;;;
         resolve (VHost "res")
       else if prop_truthy (locals w) "invalidTokenOnRevoke" then
         perform (emit (ResStatus (VNum 200))) ;;;
         perform (emit (ResSend VUndefined)) ;;;
         resolve (VHost "res")
       else
         perform (emit (ResStatus (VNum (code e)))) ;;;
         perform (emit (ResSend (VObj [("error", VStr (name e));
                                       ("error_description", VStr (message e))]))) ;;;
         resolve VUndefined) w.

(** ** The engine *)

(** The Express request as the engine's [Request] wrapper reads it
    (lines 43, 72, 104, 136). *)
Record Request : Type := mkRequest {
  method : string;
  req_headers : Headers;
  query : Obj;
  req_body : JSVal
}.

(** An operation of the engine: from the request, the protocol response
    as it stands and the flow options, it leaves the protocol response as
    it populated it and settles with a value or an error.  The engine is
    not part of this repository; the middlewares are stated for every
    such operation. *)
Definition EngineOp : Type :=
  Request -> Response -> JSVal -> Response * Settled JSVal.

Record NodeOAuthServer : Type := mkServer {
  server_authenticate : EngineOp;
  server_authorize : EngineOp;
  server_token : EngineOp;
  server_revoke : EngineOp
}.

(** [server.op(request, response, options)] *)
Definition engine_call (op : EngineOp) (request : Request) (options : JSVal)
  : Promise JSVal :=
  fun w =>
    match op request (response w) options with
    | (r, s) => (with_response r w, s)
    end.

(** [var response = new Response(res)] *)
Definition new_Response : Promise unit := perform (with_response Response_new).

(** ** Constructor (lines 18-29) *)

(** What a call of the constructor leaves behind: the error it threw, if
    any, the properties it gave [this], and the argument of every
    [new NodeOAuthServer(...)] it made. *)
Record Construction : Type := mkConstruction {
  thrown : option (ErrorKind * string);
  this_after : Obj;
  engine_constructed : list Obj
}.

(** [options] is [None] when the argument is omitted.  The constructor
    of the engine belongs to another package; it is taken to return. *)
Definition ExpressOAuthServer (options : option Obj) : Construction :=
  let options := default ∅ options in
  if negb (prop_truthy options "model") then
    {| thrown := Some (InvalidArgumentError, "Missing parameter: `model`");
       this_after := ∅;
       engine_constructed := [] |}
  else
    let this1 : Obj :=
      <["useErrorHandler" := VBool (prop_truthy options "useErrorHandler")]> ∅ in
    let options := delete "useErrorHandler" options in
    {| thrown := None;
       this_after := <["server" := VHost "NodeOAuthServer"]> this1;
       engine_constructed := [options] |}.

(** ** Authentication middleware (lines 39-58) *)

Definition authenticate (server : NodeOAuthServer) (options : JSVal)
  (req : Request) : Promise JSVal :=
  new_Response ;;;
  catch_
    (tap (engine_call (server_authenticate server) req options)
         (fun token =>
            set_local "oauth" (VObj [("token", token)]) ;;;
            call_next None))
    (fun e => handleError Unbound e false).

(** ** Authorization middleware (lines 68-90) *)

Definition authorize (server : NodeOAuthServer) (options : JSVal)
  (req : Request) : Promise JSVal :=
  new_Response ;;;
  finally_
    (catch_
       (then_
          (tap (engine_call (server_authorize server) req options)
               (fun code => set_local "oauth" (VObj [("code", code)])))
          (fun _ => handleResponse))
       (fun e => handleError Unbound e true))
    (call_next None).

(** ** Grant middleware (lines 100-122) *)

Definition token (server : NodeOAuthServer) (options : JSVal)
  (req : Request) : Promise JSVal :=
  new_Response ;;;
  finally_
    (catch_
       (then_
          (tap (engine_call (server_token server) req options)
               (fun token => set_local "oauth" (VObj [("token", token)])))
          (fun _ => handleResponse))
       (fun e => handleError Unbound e true))
    (call_next None).

(** ** Revocation middleware (lines 132-155) *)

Definition revoke (server : NodeOAuthServer) (options : JSVal)
  (req : Request) : Promise JSVal :=
  new_Response ;;;
  finally_
    (catch_
       (then_
          (engine_call (server_revoke server) req options)
          (fun _ => handleResponse))
       (fun e =>
          (if instanceof_InvalidTokenError e
           then set_local "invalidTokenOnRevoke" (VBool true)
           else resolve tt) ;;;
          handleError Unbound e true))
    (call_next None).

(** ** Observations *)

Inductive Flow : Type := Authenticate | Authorize | Token | Revoke.

Definition middleware (f : Flow)
  : NodeOAuthServer -> JSVal -> Request -> Promise JSVal :=
  match f with
  | Authenticate => authenticate
  | Authorize => authorize
  | Token => token
  | Revoke => revoke
  end.

Definition engine_op (f : Flow) : NodeOAuthServer -> EngineOp :=
  match f with
  | Authenticate => server_authenticate
  | Authorize => server_authorize
  | Token => server_token
  | Revoke => server_revoke
  end.

Definition is_next (x : Effect) : bool :=
  match x with Next _ => true | _ => false end.

(** How many times [next] was called. *)
Definition next_calls (l : list Effect) : nat :=
  length (List.filter is_next l).

(** The effects a middleware adds when it handles one request: it starts
    from the effects of the store it is given. *)
Definition run {A} (p : Promise A) (w : World) : World := fst (p w).

(** A fresh request on a process: its own [res.locals], nothing done yet. *)
Definition fresh (g inst res_locals : Obj) : World :=
  {| globalThis := g; instance := inst; response := Response_new;
     locals := res_locals; effects := [] |}.

(** The store a later request of the same process starts from: the
    global object and the adapter as the earlier request left them, and
    a response and [res.locals] of its own. *)
Definition next_request (w : World) (res_locals : Obj) : World :=
  fresh (globalThis w) (instance w) res_locals.

Definition is_locals_write (x : Effect) : bool :=
  match x with LocalsWrite _ _ => true | _ => false end.

(** The assignments to [res.locals] among the effects. *)
Definition locals_writes (l : list Effect) : list Effect :=
  List.filter is_locals_write l.

(** How the engine settles a flow for a request: the operation is handed
    the response of line 44. *)
Definition engine_settles (f : Flow) (server : NodeOAuthServer)
  (req : Request) (options : JSVal) : Response * Settled JSVal :=
  engine_op f server req Response_new options.

Definition is_rejected {A} (s : Settled A) : bool :=
  match s with Rejected _ => true | Fulfilled _ => false end.

Definition is_authenticate (f : Flow) : bool :=
  match f with Authenticate => true | _ => false end.

(** * The second copy (lines 214-415) *)

(** In this copy every middleware is bound to the adapter (lines 267,
    297, 327 and 358) and its chain is bound to it as well, so [this] in
    a handler is the adapter.  The copy differs from the module in three
    places: authorize, token and revoke hand the adapter to the
    error translator with [handleError.call(this, ...)]; revoke raises the
    flag on the adapter, [this.invalidTokenOnRevoke = true]; and the error
    translator reads the flag from its receiver.

    The handlers of this copy read the engine from [this.server] when the
    request is handled (lines 258, 285, 315 and 345).  The parameter
    [server] of a middleware stands for the engine found there: the
    definitions describe an adapter that carries the engine the
    constructor stored, and say nothing of an adapter without one. *)
Module SecondCopy.

(** [this.k = v] in a handler of a bound chain *)
Definition set_this (k : string) (v : JSVal) : Promise unit :=
  perform (fun w => with_instance (<[k := v]> (instance w)) w).

(** Handle error (lines 382-409) *)
Definition handleError (this_ : Receiver) (e : Error) (supplied : bool)
  : Promise JSVal :=
  fun w =>
    if prop_is_true (this_of this_ w) "useErrorHandler" then
      (call_next (Some e) ;;; resolve VUndefined) w
    else
      ((if supplied then perform (emit (ResSet (headers (response w))))
        else resolve tt) ;;;
       if instanceof_UnauthorizedRequestError e then
         perform (emit (ResStatus (VNum (code e)))) ;;;
         resolve (VHost "res")
       else if prop_truthy (this_of this_ w) "invalidTokenOnRevoke" then
         perform (emit (ResStatus (VNum 200))) ;;;
         perform (emit (ResSend VUndefined)) ;;;
         resolve (VHost "res")
       else
         perform (emit (ResStatus (VNum (code e)))) ;;;
         perform (emit (ResSend (VObj [("error", VStr (name e));
                                       ("error_description", VStr (message e))]))) ;;;
         resolve VUndefined) w.

(** Authentication middleware (lines 251-268) *)
Definition authenticate (server : NodeOAuthServer) (options : JSVal)
  (req : Request) : Promise JSVal :=
  new_Response ;;;
  catch_
    (tap (engine_call (server_authenticate server) req options)
         (fun token =>
            set_local "oauth" (VObj [("token", token)]) ;;;
            call_next None))
    (fun e => handleError Unbound e false).

(** Authorization middleware (lines 278-298) *)
Definition authorize (server : NodeOAuthServer) (options : JSVal)
  (req : Request) : Promise JSVal :=
  new_Response ;;;
  finally_
    (catch_
       (then_
          (tap (engine_call (server_authorize server) req options)
               (fun code => set_local "oauth" (VObj [("code", code)])))
          (fun _ => handleResponse))
       (fun e => handleError Bound e true))
    (call_next None).

(** Grant middleware (lines 308-328) *)
Definition token (server : NodeOAuthServer) (options : JSVal)
  (req : Request) : Promise JSVal :=
  new_Response ;;;
  finally_
    (catch_
       (then_
          (tap (engine_call (server_token server) req options)
               (fun token => set_local "oauth" (VObj [("token", token)])))
          (fun _ => handleResponse))
       (fun e => handleError Bound e true))
    (call_next None).

(** Revocation middleware (lines 338-359) *)
Definition revoke (server : NodeOAuthServer) (options : JSVal)
  (req : Request) : Promise JSVal :=
  new_Response ;;;
  finally_
    (catch_
       (then_
          (engine_call (server_revoke server) req options)
          (fun _ => handleResponse))
       (fun e =>
          (if instanceof_InvalidTokenError e
           then set_this "invalidTokenOnRevoke" (VBool true)
           else resolve tt) ;;;
          handleError Bound e true))
    (call_next None).

End SecondCopy.

(** The middleware of a flow in the second copy. *)
Definition middleware2 (f : Flow)
  : NodeOAuthServer -> JSVal -> Request -> Promise JSVal :=
  match f with
  | Authenticate => SecondCopy.authenticate
  | Authorize => SecondCopy.authorize
  | Token => SecondCopy.token
  | Revoke => SecondCopy.revoke
  end.

(** ** Sample data *)

Definition aModel : Obj := {[ "model" := VHost "model" ]}.

Definition rejecting (e : Error) : EngineOp :=
  fun _ r _ => (r, Rejected e).

Definition rejectAll (e : Error) : NodeOAuthServer :=
  mkServer (rejecting e) (rejecting e) (rejecting e) (rejecting e).

(** An engine that sets a challenge header before it fails. *)
Definition challenging (e : Error) : EngineOp :=
  fun _ r _ =>
    ({| status := status r;
        headers := <["www-authenticate" := "Bearer"]> (headers r);
        body := body r |}, Rejected e).

Definition challengeAll (e : Error) : NodeOAuthServer :=
  mkServer (challenging e) (challenging e) (challenging e) (challenging e).

Definition fulfilling (st : JSVal) (h : Headers) (b v : JSVal) : EngineOp :=
  fun _ _ _ => ({| status := st; headers := h; body := b |}, Fulfilled v).

Definition fulfilAll (st : JSVal) (h : Headers) (b v : JSVal) : NodeOAuthServer :=
  mkServer (fulfilling st h b v) (fulfilling st h b v)
           (fulfilling st h b v) (fulfilling st h b v).

Definition aRequest : Request := mkRequest "POST" ∅ ∅ VUndefined.

Definition bad : Error := mkError OtherError 400 "invalid_request" "bad".

Definition unauthorized : Error :=
  mkError UnauthorizedRequestError 401 "unauthorized_request" "no token".

Definition invalidToken : Error :=
  mkError InvalidTokenError 401 "invalid_token" "unknown token".

(** The adapter objects the constructor builds with [useErrorHandler]
    left out and set. *)
Definition plainAdapter : Obj :=
  this_after (ExpressOAuthServer (Some aModel)).

Definition delegatingAdapter : Obj :=
  this_after (ExpressOAuthServer
                (Some (<["useErrorHandler" := VBool true]> aModel))).

(** * Properties *)

(** ** Reasoning about chains *)

Ltac chain :=
  unfold run, authenticate, authorize, token, revoke, new_Response,
    handleError, handleResponse, engine_call, call_next, set_local,
    finally_, catch_, tap, then_, perform, resolve in *; simpl in *.

(** Case analysis on the conditions a chain tests, using the hypotheses
    that settle them. *)
Ltac branches :=
  repeat (simpl;
    match goal with
    | H : prop_is_true ?o ?k = _ |- context [prop_is_true ?o ?k] => rewrite H
    | H : prop_truthy ?o ?k = _ |- context [prop_truthy ?o ?k] => rewrite H
    | |- context [is_302 ?s] => destruct (is_302 s)
    | |- context [instanceof_InvalidTokenError ?e] =>
        destruct (instanceof_InvalidTokenError e)
    | |- context [instanceof_UnauthorizedRequestError ?e] =>
        destruct (instanceof_UnauthorizedRequestError e)
    | |- context [prop_truthy ?o ?k] => destruct (prop_truthy o k)
    | |- context [prop_is_true ?o ?k] => destruct (prop_is_true o k)
    end); simpl.

(** A chain leaves the global object and the adapter as it found them. *)
Definition keeps_shared {A} (p : Promise A) : Prop :=
  forall w, globalThis (fst (p w)) = globalThis w /\
            instance (fst (p w)) = instance w.

Lemma keeps_resolve {A} (v : A) : keeps_shared (resolve v).
Proof. intros w. split; reflexivity. Qed.

Lemma keeps_perform (f : World -> World) :
  (forall w, globalThis (f w) = globalThis w /\ instance (f w) = instance w) ->
  keeps_shared (perform f).
Proof. intros H w. apply H. Qed.

Lemma keeps_then {A B} (p : Promise A) (f : A -> Promise B) :
  keeps_shared p -> (forall v, keeps_shared (f v)) -> keeps_shared (then_ p f).
Proof.
  intros Hp Hf w. unfold then_.
  destruct (Hp w) as [Hg Hi]. destruct (p w) as [w' [v | e]]; simpl in *.
  - destruct (Hf v w') as [Hg' Hi']. split; congruence.
  - split; assumption.
Qed.

Lemma keeps_tap {A B} (p : Promise A) (f : A -> Promise B) :
  keeps_shared p -> (forall v, keeps_shared (f v)) -> keeps_shared (tap p f).
Proof.
  intros Hp Hf. unfold tap. apply keeps_then; [assumption | intros v].
  apply keeps_then; [apply Hf | intros _; apply keeps_resolve].
Qed.

Lemma keeps_catch {A} (p : Promise A) (h : Error -> Promise A) :
  keeps_shared p -> (forall e, keeps_shared (h e)) -> keeps_shared (catch_ p h).
Proof.
  intros Hp Hh w. unfold catch_.
  destruct (Hp w) as [Hg Hi]. destruct (p w) as [w' [v | e]]; simpl in *.
  - split; assumption.
  - destruct (Hh e w') as [Hg' Hi']. split; congruence.
Qed.

Lemma keeps_finally {A B} (p : Promise A) (h : Promise B) :
  keeps_shared p -> keeps_shared h -> keeps_shared (finally_ p h).
Proof.
  intros Hp Hh w. unfold finally_.
  destruct (Hp w) as [Hg Hi]. destruct (p w) as [w' s]; simpl in *.
  destruct (Hh w') as [Hg' Hi']. destruct (h w') as [w'' [v | e]]; simpl in *;
    split; congruence.
Qed.

Lemma keeps_emit (x : Effect) : keeps_shared (perform (emit x)).
Proof. apply keeps_perform. intros w. split; reflexivity. Qed.

Lemma keeps_with_response (r : Response) : keeps_shared (perform (with_response r)).
Proof. apply keeps_perform. intros w. split; reflexivity. Qed.

Lemma keeps_set_local k v : keeps_shared (set_local k v).
Proof. apply keeps_perform. intros w. split; reflexivity. Qed.

Lemma keeps_engine_call op req options : keeps_shared (engine_call op req options).
Proof.
  intros w. unfold engine_call.
  destruct (op req (response w) options) as [r s]. split; reflexivity.
Qed.

Lemma keeps_handleResponse : keeps_shared handleResponse.
Proof.
  intros w. unfold handleResponse.
  destruct (is_302 (status (response w))); split; reflexivity.
Qed.

Lemma keeps_handleError this_ e supplied :
  keeps_shared (handleError this_ e supplied).
Proof.
  intros w. unfold handleError.
  destruct (prop_is_true (this_of this_ w) "useErrorHandler");
    [split; reflexivity |].
  destruct supplied, (instanceof_UnauthorizedRequestError e),
    (prop_truthy (locals w) "invalidTokenOnRevoke"); split; reflexivity.
Qed.

Create HintDb keeps.
#[local] Hint Resolve keeps_resolve keeps_then keeps_tap keeps_catch
  keeps_finally keeps_emit keeps_with_response keeps_set_local
  keeps_engine_call keeps_handleResponse keeps_handleError : keeps.

Lemma keeps_middleware f server options req :
  keeps_shared (middleware f server options req).
Proof.
  destruct f; simpl;
    unfold authenticate, authorize, token, revoke, new_Response, call_next.
  - apply keeps_then; [auto with keeps | intros _].
    apply keeps_catch; [| auto with keeps].
    apply keeps_tap; [auto with keeps | intros v].
    apply keeps_then; auto with keeps.
  - apply keeps_then; [auto with keeps | intros _].
    apply keeps_finally; [| auto with keeps].
    apply keeps_catch; [| auto with keeps].
    apply keeps_then; [| auto with keeps].
    apply keeps_tap; auto with keeps.
  - apply keeps_then; [auto with keeps | intros _].
    apply keeps_finally; [| auto with keeps].
    apply keeps_catch; [| auto with keeps].
    apply keeps_then; [| auto with keeps].
    apply keeps_tap; auto with keeps.
  - apply keeps_then; [auto with keeps | intros _].
    apply keeps_finally; [| auto with keeps].
    apply keeps_catch; [auto with keeps | intros e].
    apply keeps_then; [| auto with keeps].
    destruct (instanceof_InvalidTokenError e); auto with keeps.
Qed.

Lemma next_calls_app l l' :
  next_calls (l ++ l') = (next_calls l + next_calls l')%nat.
Proof. unfold next_calls. rewrite List.filter_app, length_app. reflexivity. Qed.

Lemma locals_writes_app l l' :
  locals_writes (l ++ l') = locals_writes l ++ locals_writes l'.
Proof. apply List.filter_app. Qed.

Lemma unauthorized_is_instance e :
  kind e = UnauthorizedRequestError ->
  instanceof_UnauthorizedRequestError e = true.
Proof. unfold instanceof_UnauthorizedRequestError. intros ->. reflexivity. Qed.

Lemma not_unauthorized_no_instance e :
  kind e <> UnauthorizedRequestError ->
  instanceof_UnauthorizedRequestError e = false.
Proof.
  unfold instanceof_UnauthorizedRequestError. destruct (kind e); congruence.
Qed.

Lemma flag_after_write (l : Obj) :
  prop_truthy (<["invalidTokenOnRevoke" := VBool true]> l) "invalidTokenOnRevoke"
  = true.
Proof. unfold prop_truthy. rewrite lookup_insert_eq. reflexivity. Qed.

(** ** Response translation *)

(** C5. The response translator is total and special-cases the status
    302 alone.  When the status of the protocol response is the number
    302, it reads the [location] header, deletes it from the headers of
    the protocol response, applies the headers that remain and redirects
    to the location read, so [location] is not among the headers applied.
    For every other status it applies all the headers, sets the status of
    the protocol response and sends its body as it is. *)
Theorem handleResponse_total (w : World) :
  let r := response w in
  (is_302 (status r) = true <-> status r = VNum 302) /\
  delete "location" (headers r) !! "location" = None /\
  run handleResponse w =
    if is_302 (status r) then
      {| globalThis := globalThis w; instance := instance w;
         response := {| status := status r;
                        headers := delete "location" (headers r);
                        body := body r |};
         locals := locals w;
         effects := effects w ++ [ResSet (delete "location" (headers r));
                                  ResRedirect (headers r !! "location")] |}
    else
      {| globalThis := globalThis w; instance := instance w;
         response := r; locals := locals w;
         effects := effects w ++ [ResSet (headers r);
                                  ResStatus (status r);
                                  ResSend (body r)] |}.
Proof.
  simpl. split; [| split].
  - unfold is_302. destruct (status (response w)); split; intros H;
      try discriminate.
    + apply Z.eqb_eq in H. subst. reflexivity.
    + injection H as ->. reflexivity.
  - apply lookup_delete_eq.
  - unfold run, handleResponse.
    destruct (is_302 (status (response w))); unfold then_, perform, resolve,
      emit, with_response; simpl; rewrite <- !app_assoc; reflexivity.
Qed.

(** ** Error translation *)

(** C6. When the receiver of the error translator does not carry
    [useErrorHandler === true] and the error is an
    UnauthorizedRequestError, the translator applies the headers of the
    protocol response if one was supplied, then sets the status to the
    error's code, and does nothing else: no body is sent and [next] is
    not called. *)
Theorem handleError_unauthorized_status_only
  (this_ : Receiver) (e : Error) (supplied : bool) (w : World) :
  prop_is_true (this_of this_ w) "useErrorHandler" = false ->
  kind e = UnauthorizedRequestError ->
  run (handleError this_ e supplied) w =
    {| globalThis := globalThis w; instance := instance w;
       response := response w; locals := locals w;
       effects := effects w ++
                  (if supplied then [ResSet (headers (response w))] else []) ++
                  [ResStatus (VNum (code e))] |}.
Proof.
  intros Hflag Hkind. unfold run, handleError. rewrite Hflag.
  apply unauthorized_is_instance in Hkind.
  destruct supplied; unfold then_, perform, resolve, emit; simpl;
    rewrite Hkind; simpl; rewrite <- ?app_assoc; reflexivity.
Qed.

(** The 401 of the specification: headers, then the status, no body. *)
Lemma handleError_unauthorized_status_only_witness :
  effects (run (handleError Unbound unauthorized true)
             (fresh ∅ plainAdapter ∅))
  = [ResSet ∅; ResStatus (VNum 401)].
Proof.
  rewrite (handleError_unauthorized_status_only Unbound unauthorized true
             (fresh ∅ plainAdapter ∅)); reflexivity.
Defined.

(** C7. When the receiver of the error translator does not carry
    [useErrorHandler === true], the error is not an
    UnauthorizedRequestError and [res.locals.invalidTokenOnRevoke] is not
    set, the translator applies the headers of the protocol response if
    one was supplied, sets the status to the error's code and sends the
    object [{ error: e.name, error_description: e.message }]. *)
Theorem handleError_json_body
  (this_ : Receiver) (e : Error) (supplied : bool) (w : World) :
  prop_is_true (this_of this_ w) "useErrorHandler" = false ->
  kind e <> UnauthorizedRequestError ->
  prop_truthy (locals w) "invalidTokenOnRevoke" = false ->
  run (handleError this_ e supplied) w =
    {| globalThis := globalThis w; instance := instance w;
       response := response w; locals := locals w;
       effects := effects w ++
                  (if supplied then [ResSet (headers (response w))] else []) ++
                  [ResStatus (VNum (code e));
                   ResSend (VObj [("error", VStr (name e));
                                  ("error_description", VStr (message e))])] |}.
Proof.
  intros Hflag Hkind Hrevoke. unfold run, handleError. rewrite Hflag.
  apply not_unauthorized_no_instance in Hkind.
  destruct supplied; unfold then_, perform, resolve, emit; simpl;
    rewrite Hkind, Hrevoke; simpl; rewrite <- ?app_assoc; reflexivity.
Qed.

(** The 400 of the specification, translated without a protocol response. *)
Lemma handleError_json_body_witness :
  effects (run (handleError Unbound bad false) (fresh ∅ plainAdapter ∅))
  = [ResStatus (VNum 400);
     ResSend (VObj [("error", VStr "invalid_request");
                    ("error_description", VStr "bad")])].
Proof.
  rewrite (handleError_json_body Unbound bad false (fresh ∅ plainAdapter ∅));
    [reflexivity | reflexivity | discriminate | reflexivity].
Defined.

(** ** The flows *)

(** C9. When the engine validates the token and settles with [t], the
    authenticate middleware assigns [{ token: t }] to [res.locals.oauth]
    and then calls [next()]; these are its only two effects, in that
    order, so [next] is called once, without an error, after the write. *)
Theorem authenticate_success_token_then_next
  (server : NodeOAuthServer) (options : JSVal) (req : Request) (w : World)
  (t : JSVal) (r : Response) :
  server_authenticate server req Response_new options = (r, Fulfilled t) ->
  let w' := run (authenticate server options req) w in
  locals w' !! "oauth" = Some (VObj [("token", t)]) /\
  effects w' = effects w ++ [LocalsWrite "oauth" (VObj [("token", t)]);
                             Next None].
Proof.
  intros Heng. chain. rewrite Heng. simpl. split.
  - apply lookup_insert_eq.
  - rewrite <- app_assoc. reflexivity.
Qed.

(** A validated token reaches [res.locals.oauth] before [next()]. *)
Lemma authenticate_success_token_then_next_witness :
  effects (run (authenticate (fulfilAll (VNum 200) ∅ VUndefined (VStr "tok"))
                  VUndefined aRequest)
             (fresh ∅ plainAdapter ∅))
  = [LocalsWrite "oauth" (VObj [("token", VStr "tok")]); Next None].
Proof.
  exact (proj2 (authenticate_success_token_then_next
                  (fulfilAll (VNum 200) ∅ VUndefined (VStr "tok"))
                  VUndefined aRequest (fresh ∅ plainAdapter ∅)
                  (VStr "tok") _ eq_refl)).
Defined.

(** When the engine settles an authorize request and leaves the status
    302 in the protocol response, the middleware records the code,
    applies the headers without [location], redirects to the location the
    engine gave, and calls [next()]. *)
Lemma authorize_success_redirects
  (server : NodeOAuthServer) (options : JSVal) (req : Request) (w : World)
  (c : JSVal) (r : Response) :
  server_authorize server req Response_new options = (r, Fulfilled c) ->
  status r = VNum 302 ->
  effects (run (authorize server options req) w) =
    effects w ++ [LocalsWrite "oauth" (VObj [("code", c)]);
                  ResSet (delete "location" (headers r));
                  ResRedirect (headers r !! "location");
                  Next None].
Proof.
  intros Heng Hst. chain. rewrite Heng. simpl. rewrite Hst. simpl.
  rewrite <- !app_assoc. reflexivity.
Qed.

(** C10. When the engine operation of an authorize or token request
    fails, the middleware leaves [res.locals] as it was and makes no
    assignment to it. *)
Theorem failure_leaves_locals
  (f : Flow) (server : NodeOAuthServer) (options : JSVal) (req : Request)
  (w : World) (e : Error) (r : Response) :
  f = Authorize \/ f = Token ->
  engine_settles f server req options = (r, Rejected e) ->
  let w' := run (middleware f server options req) w in
  locals w' = locals w /\
  locals_writes (effects w') = locals_writes (effects w).
Proof.
  intros Hf Heng. unfold engine_settles in Heng.
  destruct Hf as [-> | ->]; simpl in *; chain; rewrite Heng; simpl;
    destruct (prop_is_true (globalThis w) "useErrorHandler"); simpl;
    try destruct (instanceof_UnauthorizedRequestError e); simpl;
    try destruct (prop_truthy (locals w) "invalidTokenOnRevoke"); simpl;
    (split; [reflexivity |]);
    rewrite ?locals_writes_app; simpl; rewrite ?app_nil_r; reflexivity.
Qed.

(** A rejected token request leaves the [res.locals] it found. *)
Lemma failure_leaves_locals_witness :
  locals (run (middleware Token (rejectAll bad) VUndefined aRequest)
            (fresh ∅ plainAdapter {[ "user" := VStr "u" ]}))
  = {[ "user" := VStr "u" ]}.
Proof.
  exact (proj1 (failure_leaves_locals Token (rejectAll bad) VUndefined aRequest
                  (fresh ∅ plainAdapter {[ "user" := VStr "u" ]}) bad _
                  (or_intror eq_refl) eq_refl)).
Defined.

(** C2. When the engine fails a revoke request with an
    InvalidTokenError, the middleware marks the request, applies the
    headers of the protocol response, sets the status 200 and sends an
    empty body, then calls [next()].  This holds whatever the code of the
    error and whatever the adapter holds, so for either value of the
    configured [useErrorHandler]; the global object, which is the
    receiver the error translator is called with, is taken not to define
    [useErrorHandler] as [true]. *)
Theorem revoke_invalid_token_is_success
  (server : NodeOAuthServer) (options : JSVal) (req : Request) (w : World)
  (e : Error) (r : Response) :
  prop_is_true (globalThis w) "useErrorHandler" = false ->
  server_revoke server req Response_new options = (r, Rejected e) ->
  kind e = InvalidTokenError ->
  effects (run (revoke server options req) w) =
    effects w ++ [LocalsWrite "invalidTokenOnRevoke" (VBool true);
                  ResSet (headers r);
                  ResStatus (VNum 200);
                  ResSend VUndefined;
                  Next None].
Proof.
  intros Hg Heng Hkind. chain. rewrite Heng. simpl.
  unfold instanceof_InvalidTokenError, instanceof_UnauthorizedRequestError.
  rewrite Hkind. simpl. rewrite Hg. simpl. rewrite flag_after_write. simpl.
  rewrite <- !app_assoc. reflexivity.
Qed.

(** An unknown token revoked through an adapter built with
    [useErrorHandler: true]: the error carries 401, the answer is 200. *)
Lemma revoke_invalid_token_is_success_witness :
  effects (run (revoke (rejectAll invalidToken) VUndefined aRequest)
             (fresh ∅ delegatingAdapter ∅))
  = [LocalsWrite "invalidTokenOnRevoke" (VBool true);
     ResSet ∅; ResStatus (VNum 200); ResSend VUndefined; Next None].
Proof.
  exact (revoke_invalid_token_is_success (rejectAll invalidToken) VUndefined
           aRequest (fresh ∅ delegatingAdapter ∅) invalidToken _
           eq_refl eq_refl eq_refl).
Defined.

(** ** Advancing the pipeline *)

(** C1, as stated, fails: when the engine rejects an authenticate
    request and the adapter was built without [useErrorHandler], the
    error response is written and [next] is not called at all. *)
Lemma authenticate_failure_does_not_advance :
  effects (run (authenticate (rejectAll bad) VUndefined aRequest)
             (fresh ∅ plainAdapter ∅))
  = [ResStatus (VNum 400);
     ResSend (VObj [("error", VStr "invalid_request");
                    ("error_description", VStr "bad")])]
  /\ next_calls (effects (run (authenticate (rejectAll bad) VUndefined aRequest)
                            (fresh ∅ plainAdapter ∅))) = 0%nat.
Proof. split; reflexivity. Qed.

(** C1, amended.  With [useErrorHandler] off, or when the engine
    succeeds: the authorize, token and revoke middlewares call [next]
    exactly once, whether the engine succeeds or fails; the authenticate
    middleware calls [next] exactly once when the engine succeeds and not
    at all when it fails.  The global object is taken not to define
    [useErrorHandler] as [true]. *)
Theorem next_called_once_amended
  (f : Flow) (server : NodeOAuthServer) (options : JSVal) (req : Request)
  (w : World) :
  prop_is_true (globalThis w) "useErrorHandler" = false ->
  is_rejected (snd (engine_settles f server req options)) = false \/
  prop_is_true (instance w) "useErrorHandler" = false ->
  next_calls (effects (run (middleware f server options req) w)) =
    (next_calls (effects w) +
     if is_authenticate f && is_rejected (snd (engine_settles f server req options))
     then 0 else 1)%nat.
Proof.
  intros Hg _. unfold engine_settles.
  destruct f; simpl; chain;
    match goal with
    | |- context [?op req Response_new options] =>
        destruct (op req Response_new options) as [r [v | e]]
    end; branches;
    rewrite ?next_calls_app; unfold next_calls; simpl; lia.
Qed.

(** A revoke that fails advances the pipeline once. *)
Lemma next_called_once_amended_witness :
  next_calls (effects (run (middleware Revoke (rejectAll invalidToken)
                              VUndefined aRequest)
                         (fresh ∅ plainAdapter ∅))) = 1%nat.
Proof.
  exact (next_called_once_amended Revoke (rejectAll invalidToken) VUndefined
           aRequest (fresh ∅ plainAdapter ∅) eq_refl (or_intror eq_refl)).
Defined.

(** ** The [useErrorHandler] option *)

(** X13. No middleware reads the adapter: the error translator is
    called without a receiver (lines 55, 86, 118 and 151), so the
    [this.useErrorHandler] of line 180 is a property of the global
    object, and a request is handled in the same way whatever the
    constructor stored at line 25. *)
Lemma middleware_ignores_adapter
  (f : Flow) (server : NodeOAuthServer) (options : JSVal) (req : Request)
  (w : World) (i : Obj) :
  run (middleware f server options req) (with_instance i w) =
  with_instance i (run (middleware f server options req) w).
Proof.
  destruct f; simpl; chain;
    match goal with
    | |- context [?op req Response_new options] =>
        destruct (op req Response_new options) as [r [v | e]]
    end; branches; reflexivity.
Qed.

(** The error translator itself does delegate when its receiver carries
    the flag: it calls [next(e)] and writes nothing. *)
Lemma handleError_delegates
  (this_ : Receiver) (e : Error) (supplied : bool) (w : World) :
  prop_is_true (this_of this_ w) "useErrorHandler" = true ->
  run (handleError this_ e supplied) w = emit (Next (Some e)) w.
Proof. intros H. unfold run, handleError. rewrite H. reflexivity. Qed.

(** C3 fails on the code.  The adapter is built with
    [useErrorHandler: true]; the engine rejects a request with a protocol
    error.  The authenticate middleware writes the status and the JSON
    body itself and never calls [next]; the authorize middleware writes
    them as well and the only call of [next] is the finalizer's, without
    the error. *)
Theorem useErrorHandler_true_not_delegated :
  thrown (ExpressOAuthServer
            (Some (<["useErrorHandler" := VBool true]> aModel))) = None /\
  delegatingAdapter !! "useErrorHandler" = Some (VBool true) /\
  effects (run (authenticate (rejectAll bad) VUndefined aRequest)
             (fresh ∅ delegatingAdapter ∅))
  = [ResStatus (VNum 400);
     ResSend (VObj [("error", VStr "invalid_request");
                    ("error_description", VStr "bad")])] /\
  effects (run (authorize (rejectAll bad) VUndefined aRequest)
             (fresh ∅ delegatingAdapter ∅))
  = [ResSet ∅; ResStatus (VNum 400);
     ResSend (VObj [("error", VStr "invalid_request");
                    ("error_description", VStr "bad")]);
     Next None].
Proof. repeat split; reflexivity. Qed.

(** ** Requests do not interfere *)

(** Handling a request changes neither the global object nor the
    adapter. *)
Lemma run_keeps_shared
  (f : Flow) (server : NodeOAuthServer) (options : JSVal) (req : Request)
  (w : World) (res_locals : Obj) :
  next_request (run (middleware f server options req) w) res_locals =
  next_request w res_locals.
Proof.
  unfold next_request, run.
  destruct (keeps_middleware f server options req w) as [-> ->].
  reflexivity.
Qed.

(** X14. In the module (lines 1-212) the revoke flag lives in
    [res.locals] of the request that raised it.  Take one adapter and one
    process, and let a first request be handled in two ways: by any flow,
    engine, request and [res.locals], in particular by a revoke that
    fails with an InvalidTokenError and by one that does not.  A second
    request, handled after either by a middleware of the module, ends in
    the same store: the same effects, [res.locals] and protocol
    response.  The second copy does not have this property; see
    [second_copy_flag_outlives_request]. *)
Theorem invalidTokenOnRevoke_is_request_scoped
  (g inst : Obj)
  (f1 : Flow) (server1 : NodeOAuthServer) (options1 : JSVal) (req1 : Request)
  (locals1 : Obj)
  (f1' : Flow) (server1' : NodeOAuthServer) (options1' : JSVal)
  (req1' : Request) (locals1' : Obj)
  (f2 : Flow) (server2 : NodeOAuthServer) (options2 : JSVal) (req2 : Request)
  (locals2 : Obj) :
  let after := run (middleware f1 server1 options1 req1) (fresh g inst locals1) in
  let after' := run (middleware f1' server1' options1' req1') (fresh g inst locals1') in
  run (middleware f2 server2 options2 req2) (next_request after locals2) =
  run (middleware f2 server2 options2 req2) (next_request after' locals2).
Proof.
  simpl. rewrite !run_keeps_shared. reflexivity.
Qed.

(** The comparison on sample data: a token request that the
    engine rejects is answered with the error's own status and body, also
    after a revoke of the same adapter that raised InvalidTokenError. *)
Example token_error_after_invalid_revoke :
  effects (run (token (rejectAll bad) VUndefined aRequest)
             (next_request
                (run (revoke (rejectAll invalidToken) VUndefined aRequest)
                   (fresh ∅ plainAdapter ∅)) ∅))
  = [ResSet ∅; ResStatus (VNum 400);
     ResSend (VObj [("error", VStr "invalid_request");
                    ("error_description", VStr "bad")]);
     Next None].
Proof. reflexivity. Qed.

(** ** Construction *)

(** C8, as stated, fails: an options object that contains a [model]
    entry whose value is [null] is refused with the same error. *)
Lemma model_null_is_refused :
  ({[ "model" := VNull ]} : Obj) !! "model" = Some VNull /\
  thrown (ExpressOAuthServer (Some {[ "model" := VNull ]}))
  = Some (InvalidArgumentError, "Missing parameter: `model`").
Proof. split; reflexivity. Qed.

(** C8, amended.  The constructor tests [options.model] for truth.  When
    it is missing or falsy, in particular for every options object
    without a [model] entry and for an omitted argument, the constructor
    throws an InvalidArgumentError and constructs no engine.  When it is
    truthy the constructor throws nothing and constructs the engine
    once, from the options without [useErrorHandler]. *)
Theorem constructor_requires_truthy_model (options : option Obj) :
  let o : Obj := default ∅ options in
  (o !! "model" = None -> prop_truthy o "model" = false) /\
  (prop_truthy o "model" = false ->
     thrown (ExpressOAuthServer options)
       = Some (InvalidArgumentError, "Missing parameter: `model`") /\
     engine_constructed (ExpressOAuthServer options) = []) /\
  (prop_truthy o "model" = true ->
     thrown (ExpressOAuthServer options) = None /\
     engine_constructed (ExpressOAuthServer options)
       = [delete "useErrorHandler" o] /\
     this_after (ExpressOAuthServer options) !! "useErrorHandler"
       = Some (VBool (prop_truthy o "useErrorHandler"))).
Proof.
  simpl. unfold ExpressOAuthServer, prop_truthy at 1.
  split; [intros ->; reflexivity |].
  split; intros ->; simpl; repeat split.
Qed.

(** Construction from [{ model: m }]. *)
Lemma constructor_requires_truthy_model_witness :
  thrown (ExpressOAuthServer (Some aModel)) = None /\
  engine_constructed (ExpressOAuthServer (Some aModel)) = [aModel] /\
  plainAdapter !! "useErrorHandler" = Some (VBool false).
Proof.
  exact (proj2 (proj2 (constructor_requires_truthy_model (Some aModel)))
           eq_refl).
Defined.

(** * The second copy compared *)

(** C4 fails on the second copy (lines 350-357 and 400-405), where the
    flag is a property of the adapter.  One adapter, built without
    [useErrorHandler], handles two requests, each with a response and
    [res.locals] of its own.  When the first is a revoke that raised
    InvalidTokenError, a token request that the engine rejects with a 400
    is answered with 200 and an empty body; when the first is a revoke
    that failed otherwise, the same token request is answered with the
    400 and its JSON body.  The output of the second request depends on
    the first. *)
Lemma second_copy_flag_outlives_request :
  effects (run (SecondCopy.token (rejectAll bad) VUndefined aRequest)
             (next_request
                (run (SecondCopy.revoke (rejectAll invalidToken) VUndefined aRequest)
                   (fresh ∅ plainAdapter ∅)) ∅))
  = [ResSet ∅; ResStatus (VNum 200); ResSend VUndefined; Next None]
  /\
  effects (run (SecondCopy.token (rejectAll bad) VUndefined aRequest)
             (next_request
                (run (SecondCopy.revoke (rejectAll bad) VUndefined aRequest)
                   (fresh ∅ plainAdapter ∅)) ∅))
  = [ResSet ∅; ResStatus (VNum 400);
     ResSend (VObj [("error", VStr "invalid_request");
                    ("error_description", VStr "bad")]);
     Next None].
Proof. split; reflexivity. Qed.

(** In the second copy authorize does hand the error to [next] when the adapter was
    built with [useErrorHandler: true], and the finalizer then calls
    [next] once more; authenticate, which calls the error translator
    without a receiver as the module does, still writes the response
    itself. *)
Lemma second_copy_bound_translator_delegates :
  effects (run (SecondCopy.authorize (rejectAll bad) VUndefined aRequest)
             (fresh ∅ delegatingAdapter ∅))
  = [Next (Some bad); Next None]
  /\
  effects (run (SecondCopy.authenticate (rejectAll bad) VUndefined aRequest)
             (fresh ∅ delegatingAdapter ∅))
  = [ResStatus (VNum 400);
     ResSend (VObj [("error", VStr "invalid_request");
                    ("error_description", VStr "bad")])].
Proof. split; reflexivity. Qed.

(** * Further properties of the flows *)

(** X1. When the engine settles an authorize or token request, the
    middleware assigns [{ code: v }] (authorize) or [{ token: v }] (token)
    to [res.locals.oauth], replacing what was there and leaving the other
    entries of [res.locals]; it then translates the protocol response the
    engine populated, as a redirect for status 302 and as headers, status
    and body otherwise; and it calls [next()] once, last. *)
Theorem grant_success_translates_then_advances
  (f : Flow) (server : NodeOAuthServer) (options : JSVal) (req : Request)
  (w : World) (v : JSVal) (r : Response) :
  f = Authorize \/ f = Token ->
  engine_settles f server req options = (r, Fulfilled v) ->
  let slot := VObj [(match f with Authorize => "code" | _ => "token" end, v)] in
  let w' := run (middleware f server options req) w in
  locals w' = <["oauth" := slot]> (locals w) /\
  effects w' =
    effects w ++ [LocalsWrite "oauth" slot] ++
    (if is_302 (status r)
     then [ResSet (delete "location" (headers r));
           ResRedirect (headers r !! "location")]
     else [ResSet (headers r); ResStatus (status r); ResSend (body r)]) ++
    [Next None].
Proof.
  intros Hf Heng. unfold engine_settles in Heng.
  destruct Hf as [-> | ->]; simpl in *; chain; rewrite Heng; simpl;
    destruct (is_302 (status r)); simpl; (split; [reflexivity |]);
    rewrite <- !app_assoc; reflexivity.
Qed.

(** A token is issued with status 200: it is recorded, sent and the
    pipeline goes on; an entry of [res.locals] set upstream stays. *)
Lemma grant_success_translates_then_advances_witness :
  locals (run (middleware Token
                 (fulfilAll (VNum 200) ∅ (VStr "body") (VStr "tok"))
                 VUndefined aRequest)
            (fresh ∅ plainAdapter {[ "user" := VStr "u" ]}))
  = <["oauth" := VObj [("token", VStr "tok")]]> {[ "user" := VStr "u" ]}
  /\
  effects (run (middleware Token
                  (fulfilAll (VNum 200) ∅ (VStr "body") (VStr "tok"))
                  VUndefined aRequest)
             (fresh ∅ plainAdapter {[ "user" := VStr "u" ]}))
  = [LocalsWrite "oauth" (VObj [("token", VStr "tok")]);
     ResSet ∅; ResStatus (VNum 200); ResSend (VStr "body"); Next None].
Proof.
  exact (grant_success_translates_then_advances Token
           (fulfilAll (VNum 200) ∅ (VStr "body") (VStr "tok"))
           VUndefined aRequest (fresh ∅ plainAdapter {[ "user" := VStr "u" ]})
           (VStr "tok") _ (or_intror eq_refl) eq_refl).
Defined.

(** X2. When the engine settles a revoke request, the middleware
    translates the protocol response and calls [next()] once, last; it
    assigns nothing to [res.locals], whatever value the engine settled
    with. *)
Theorem revoke_success_has_no_side_channel
  (server : NodeOAuthServer) (options : JSVal) (req : Request)
  (w : World) (v : JSVal) (r : Response) :
  server_revoke server req Response_new options = (r, Fulfilled v) ->
  let w' := run (revoke server options req) w in
  locals w' = locals w /\
  effects w' =
    effects w ++
    (if is_302 (status r)
     then [ResSet (delete "location" (headers r));
           ResRedirect (headers r !! "location")]
     else [ResSet (headers r); ResStatus (status r); ResSend (body r)]) ++
    [Next None].
Proof.
  intros Heng. chain. rewrite Heng. simpl.
  destruct (is_302 (status r)); simpl; (split; [reflexivity |]);
    rewrite <- !app_assoc; reflexivity.
Qed.

(** A revocation answered with status 200 and an empty object. *)
Lemma revoke_success_has_no_side_channel_witness :
  locals (run (revoke (fulfilAll (VNum 200) ∅ (VObj []) VUndefined)
                 VUndefined aRequest)
            (fresh ∅ plainAdapter ∅))
  = ∅
  /\
  effects (run (revoke (fulfilAll (VNum 200) ∅ (VObj []) VUndefined)
                  VUndefined aRequest)
             (fresh ∅ plainAdapter ∅))
  = [ResSet ∅; ResStatus (VNum 200); ResSend (VObj []); Next None].
Proof.
  exact (revoke_success_has_no_side_channel
           (fulfilAll (VNum 200) ∅ (VObj []) VUndefined)
           VUndefined aRequest (fresh ∅ plainAdapter ∅) VUndefined _ eq_refl).
Defined.

(** X3. When the engine rejects an authenticate request, the middleware
    translates the error without the protocol response: the headers the
    engine left in it are not applied.  It sets the error's code as
    status, alone for an UnauthorizedRequestError and with the JSON body
    otherwise (status 200 and an empty body when
    [res.locals.invalidTokenOnRevoke] is set), assigns nothing to
    [res.locals] and does not call [next].  The global object is taken
    not to define [useErrorHandler] as [true]. *)
Theorem authenticate_failure_translation
  (server : NodeOAuthServer) (options : JSVal) (req : Request)
  (w : World) (e : Error) (r : Response) :
  prop_is_true (globalThis w) "useErrorHandler" = false ->
  server_authenticate server req Response_new options = (r, Rejected e) ->
  let w' := run (authenticate server options req) w in
  locals w' = locals w /\
  effects w' =
    effects w ++
    (if instanceof_UnauthorizedRequestError e then
       [ResStatus (VNum (code e))]
     else if prop_truthy (locals w) "invalidTokenOnRevoke" then
       [ResStatus (VNum 200); ResSend VUndefined]
     else
       [ResStatus (VNum (code e));
        ResSend (VObj [("error", VStr (name e));
                       ("error_description", VStr (message e))])]).
Proof.
  intros Hg Heng. chain. rewrite Heng. simpl. rewrite Hg. simpl.
  destruct (instanceof_UnauthorizedRequestError e); simpl;
    [| destruct (prop_truthy (locals w) "invalidTokenOnRevoke"); simpl];
    (split; [reflexivity |]); rewrite <- ?app_assoc; reflexivity.
Qed.

(** An engine that sets [WWW-Authenticate] and fails with a 401: the
    status is written, the header is not. *)
Lemma authenticate_failure_translation_witness :
  effects (run (authenticate (challengeAll unauthorized) VUndefined aRequest)
             (fresh ∅ plainAdapter ∅))
  = [ResStatus (VNum 401)].
Proof.
  exact (proj2 (authenticate_failure_translation (challengeAll unauthorized)
                  VUndefined aRequest (fresh ∅ plainAdapter ∅) unauthorized _
                  eq_refl eq_refl)).
Defined.

(** X4. When the engine rejects an authorize or token request, or
    rejects a revoke request with an error that is not an
    InvalidTokenError, the middleware first applies the headers the
    engine left in the protocol response, then writes the error (the
    status alone for an UnauthorizedRequestError, status 200 and an empty
    body when [res.locals.invalidTokenOnRevoke] was already set, the
    error's code and the JSON body otherwise), and then still calls
    [next()], after the response was written.  It assigns nothing to
    [res.locals].  The global object is taken not to define
    [useErrorHandler] as [true]. *)
Theorem failure_translation_then_next
  (f : Flow) (server : NodeOAuthServer) (options : JSVal) (req : Request)
  (w : World) (e : Error) (r : Response) :
  prop_is_true (globalThis w) "useErrorHandler" = false ->
  f <> Authenticate ->
  (f = Revoke -> kind e <> InvalidTokenError) ->
  engine_settles f server req options = (r, Rejected e) ->
  let w' := run (middleware f server options req) w in
  locals w' = locals w /\
  effects w' =
    effects w ++ [ResSet (headers r)] ++
    (if instanceof_UnauthorizedRequestError e then
       [ResStatus (VNum (code e))]
     else if prop_truthy (locals w) "invalidTokenOnRevoke" then
       [ResStatus (VNum 200); ResSend VUndefined]
     else
       [ResStatus (VNum (code e));
        ResSend (VObj [("error", VStr (name e));
                       ("error_description", VStr (message e))])]) ++
    [Next None].
Proof.
  intros Hg Hf Hrev Heng. unfold engine_settles in Heng.
  assert (Hit : f = Revoke -> instanceof_InvalidTokenError e = false).
  { intros H. specialize (Hrev H). unfold instanceof_InvalidTokenError.
    destruct (kind e); congruence. }
  destruct f; [congruence | | |]; simpl in *; chain; rewrite Heng; simpl;
    rewrite ?(Hit eq_refl); simpl; rewrite Hg; simpl;
    (destruct (instanceof_UnauthorizedRequestError e); simpl;
     [| destruct (prop_truthy (locals w) "invalidTokenOnRevoke"); simpl]);
    (split; [reflexivity |]); rewrite <- ?app_assoc; reflexivity.
Qed.

(** A token request refused with a challenge: header, status, body,
    and then [next()]. *)
Lemma failure_translation_then_next_witness :
  effects (run (middleware Token (challengeAll bad) VUndefined aRequest)
             (fresh ∅ plainAdapter ∅))
  = [ResSet {[ "www-authenticate" := "Bearer" ]};
     ResStatus (VNum 400);
     ResSend (VObj [("error", VStr "invalid_request");
                    ("error_description", VStr "bad")]);
     Next None].
Proof.
  refine (proj2 (failure_translation_then_next Token (challengeAll bad)
                   VUndefined aRequest (fresh ∅ plainAdapter ∅) bad _
                   eq_refl _ _ eq_refl)); discriminate.
Defined.

(** X5. The revoke flag is never cleared.  After a revoke that failed
    with an InvalidTokenError, [res.locals.invalidTokenOnRevoke] is
    [true]; when an authorize or token middleware then handles the same
    request and response (the revoke called [next()]), and its engine
    fails with an error that is not an UnauthorizedRequestError, that
    error is answered with status 200 and an empty body as well.  The
    global object is taken not to define [useErrorHandler] as [true]. *)
Theorem revoke_flag_stays_for_later_middleware
  (server1 : NodeOAuthServer) (options1 : JSVal) (req : Request)
  (w : World) (e1 : Error) (r1 : Response)
  (f2 : Flow) (server2 : NodeOAuthServer) (options2 : JSVal)
  (e2 : Error) (r2 : Response) :
  prop_is_true (globalThis w) "useErrorHandler" = false ->
  server_revoke server1 req Response_new options1 = (r1, Rejected e1) ->
  kind e1 = InvalidTokenError ->
  f2 = Authorize \/ f2 = Token ->
  engine_settles f2 server2 req options2 = (r2, Rejected e2) ->
  kind e2 <> UnauthorizedRequestError ->
  let w1 := run (revoke server1 options1 req) w in
  locals w1 !! "invalidTokenOnRevoke" = Some (VBool true) /\
  effects (run (middleware f2 server2 options2 req) w1) =
    effects w1 ++ [ResSet (headers r2); ResStatus (VNum 200);
                   ResSend VUndefined; Next None].
Proof.
  intros Hg Heng1 Hk1 Hf2 Heng2 Hk2. unfold engine_settles in Heng2.
  apply not_unauthorized_no_instance in Hk2.
  assert (Hit : instanceof_InvalidTokenError e1 = true)
    by (unfold instanceof_InvalidTokenError; rewrite Hk1; reflexivity).
  assert (Hun : instanceof_UnauthorizedRequestError e1 = false)
    by (unfold instanceof_UnauthorizedRequestError; rewrite Hk1; reflexivity).
  destruct Hf2 as [-> | ->]; simpl in *; chain;
    rewrite Heng1; simpl; rewrite Hit; simpl; rewrite Hg; simpl;
    rewrite Hun; simpl; rewrite flag_after_write; simpl;
    rewrite Heng2; simpl; rewrite Hg; simpl; rewrite Hk2; simpl;
    rewrite flag_after_write; simpl;
    (split; [apply lookup_insert_eq |]); rewrite <- ?app_assoc; reflexivity.
Qed.

(** A revoke of an unknown token followed, on the same response, by a
    token request the engine refuses with a 400. *)
Lemma revoke_flag_stays_for_later_middleware_witness :
  effects (run (middleware Token (rejectAll bad) VUndefined aRequest)
             (run (revoke (rejectAll invalidToken) VUndefined aRequest)
                (fresh ∅ plainAdapter ∅)))
  = [LocalsWrite "invalidTokenOnRevoke" (VBool true);
     ResSet ∅; ResStatus (VNum 200); ResSend VUndefined; Next None;
     ResSet ∅; ResStatus (VNum 200); ResSend VUndefined; Next None].
Proof.
  refine (proj2 (revoke_flag_stays_for_later_middleware
                   (rejectAll invalidToken) VUndefined aRequest
                   (fresh ∅ plainAdapter ∅) invalidToken _
                   Token (rejectAll bad) VUndefined bad _
                   eq_refl eq_refl eq_refl (or_intror eq_refl) eq_refl _));
    discriminate.
Defined.

(** X6. A redirect without a [location] header: when the status is 302
    and the protocol response has no [location], the response translator
    leaves the protocol response as it is, applies all its headers and
    calls [res.redirect] with [undefined]; it sets no status and sends no
    body. *)
Theorem redirect_without_location (w : World) :
  status (response w) = VNum 302 ->
  headers (response w) !! "location" = None ->
  run handleResponse w =
    {| globalThis := globalThis w; instance := instance w;
       response := response w; locals := locals w;
       effects := effects w ++ [ResSet (headers (response w));
                                ResRedirect None] |}.
Proof.
  intros Hst Hloc. unfold run, handleResponse. rewrite Hst. simpl.
  unfold then_, perform, resolve, emit, with_response. simpl.
  rewrite Hloc, (delete_id _ _ Hloc), <- app_assoc. simpl.
  destruct (response w) as [st h b]. simpl in *. subst st. reflexivity.
Qed.

(** A bare 302. *)
Lemma redirect_without_location_witness :
  effects (run handleResponse
             (with_response (mkResponse (VNum 302) ∅ VUndefined)
                (fresh ∅ plainAdapter ∅)))
  = [ResSet ∅; ResRedirect None].
Proof.
  rewrite (redirect_without_location
             (with_response (mkResponse (VNum 302) ∅ VUndefined)
                (fresh ∅ plainAdapter ∅)));
    [reflexivity | reflexivity | apply lookup_empty].
Defined.

(** X7. The promise a middleware returns never rejects: whatever the
    engine does, and whatever the global object and the adapter hold, the
    chain of each of the four flows settles fulfilled, so an error of the
    engine does not pass the middleware as a rejection. *)
Theorem middleware_promise_never_rejects
  (f : Flow) (server : NodeOAuthServer) (options : JSVal) (req : Request)
  (w : World) :
  is_rejected (snd (middleware f server options req w)) = false.
Proof.
  destruct f; simpl; chain;
    match goal with
    | |- context [?op req Response_new options] =>
        destruct (op req Response_new options) as [r [v | e]]
    end; branches; reflexivity.
Qed.

(** * Further properties of the constructor *)

(** X8. When [options.model] is truthy, the constructor hands the
    engine the options with [useErrorHandler] removed and every other
    entry as given, [model] included; and the flag it stores on the
    adapter is the boolean [true] exactly when [options.useErrorHandler]
    is truthy, so [1] or a non-empty string switch it on as [true]
    does. *)
Theorem constructor_forwards_other_options (options : Obj) :
  prop_truthy options "model" = true ->
  exists forwarded : Obj,
    engine_constructed (ExpressOAuthServer (Some options)) = [forwarded] /\
    forwarded !! "useErrorHandler" = None /\
    (forall k, k <> "useErrorHandler" -> forwarded !! k = options !! k) /\
    prop_truthy forwarded "model" = true /\
    prop_is_true (this_after (ExpressOAuthServer (Some options)))
      "useErrorHandler"
    = prop_truthy options "useErrorHandler".
Proof.
  intros Hm. exists (delete "useErrorHandler" options).
  unfold ExpressOAuthServer. simpl. rewrite Hm. simpl.
  split; [reflexivity |]. split; [apply lookup_delete_eq |].
  split; [intros k Hk; apply lookup_delete_ne; congruence |]. split.
  - unfold prop_truthy in *. rewrite lookup_delete_ne by discriminate.
    exact Hm.
  - unfold prop_is_true. rewrite lookup_insert_ne by discriminate.
    rewrite lookup_insert_eq.
    destruct (prop_truthy options "useErrorHandler"); reflexivity.
Qed.

(** Options with a tuning entry of the engine and [useErrorHandler: 1]. *)
Lemma constructor_forwards_other_options_witness :
  exists forwarded : Obj,
    engine_constructed
      (ExpressOAuthServer
         (Some (<["useErrorHandler" := VNum 1]>
                  (<["accessTokenLifetime" := VNum 3600]> aModel))))
    = [forwarded] /\
    forwarded !! "useErrorHandler" = None /\
    (forall k, k <> "useErrorHandler" ->
       forwarded !! k
       = (<["useErrorHandler" := VNum 1]>
            (<["accessTokenLifetime" := VNum 3600]> aModel)) !! k) /\
    prop_truthy forwarded "model" = true /\
    prop_is_true
      (this_after
         (ExpressOAuthServer
            (Some (<["useErrorHandler" := VNum 1]>
                     (<["accessTokenLifetime" := VNum 3600]> aModel)))))
      "useErrorHandler"
    = prop_truthy (<["useErrorHandler" := VNum 1]>
                     (<["accessTokenLifetime" := VNum 3600]> aModel))
        "useErrorHandler".
Proof.
  exact (constructor_forwards_other_options
           (<["useErrorHandler" := VNum 1]>
              (<["accessTokenLifetime" := VNum 3600]> aModel)) eq_refl).
Defined.

(** * Delegation to the upstream error handler *)

(** X9. The switch the error translator reads is a property of the
    global object.  When the global object defines [useErrorHandler] as
    [true] and the engine rejects a request, the middleware writes
    nothing to the response and calls [next(e)] with the error as it
    received it; authorize, token and revoke then call [next()] once
    more from the finalizer, and revoke first marks the request when the
    error is an InvalidTokenError.  The adapter plays no part. *)
Theorem global_flag_delegates
  (f : Flow) (server : NodeOAuthServer) (options : JSVal) (req : Request)
  (w : World) (e : Error) (r : Response) :
  prop_is_true (globalThis w) "useErrorHandler" = true ->
  engine_settles f server req options = (r, Rejected e) ->
  effects (run (middleware f server options req) w) =
    effects w ++
    (match f with
     | Revoke => if instanceof_InvalidTokenError e
                 then [LocalsWrite "invalidTokenOnRevoke" (VBool true)]
                 else []
     | _ => []
     end) ++
    [Next (Some e)] ++
    (match f with Authenticate => [] | _ => [Next None] end).
Proof.
  intros Hg Heng. unfold engine_settles in Heng.
  destruct f; simpl in *; chain; rewrite Heng; simpl;
    try destruct (instanceof_InvalidTokenError e); simpl;
    rewrite Hg; simpl; rewrite <- ?app_assoc; reflexivity.
Qed.

(** An application that set [global.useErrorHandler = true], with an
    adapter built without the option. *)
Lemma global_flag_delegates_witness :
  effects (run (middleware Authorize (rejectAll bad) VUndefined aRequest)
             (fresh {[ "useErrorHandler" := VBool true ]} plainAdapter ∅))
  = [Next (Some bad); Next None].
Proof.
  exact (global_flag_delegates Authorize (rejectAll bad) VUndefined aRequest
           (fresh {[ "useErrorHandler" := VBool true ]} plainAdapter ∅)
           bad _ eq_refl eq_refl).
Defined.

(** * Further properties of the second copy *)

Ltac chain2 :=
  unfold run, middleware2, SecondCopy.authenticate, SecondCopy.authorize,
    SecondCopy.token, SecondCopy.revoke, SecondCopy.handleError,
    SecondCopy.set_this, new_Response, handleResponse, engine_call,
    call_next, set_local, finally_, catch_, tap, then_, perform, resolve
    in *; simpl in *.

Lemma flag_on_adapter_keeps_switch (inst : Obj) :
  prop_is_true (<["invalidTokenOnRevoke" := VBool true]> inst) "useErrorHandler"
  = prop_is_true inst "useErrorHandler".
Proof.
  unfold prop_is_true. rewrite lookup_insert_ne by discriminate. reflexivity.
Qed.

(** X10. In the second copy (lines 214-415) authorize, token and revoke
    hand the adapter to the error translator.  When the adapter carries
    [useErrorHandler === true] and the engine rejects the request, the
    middleware writes nothing to the response and calls [next] twice:
    [next(e)] from the error translator and then [next()] from the
    finalizer. *)
Theorem second_copy_delegates_and_advances_twice
  (f : Flow) (server : NodeOAuthServer) (options : JSVal) (req : Request)
  (w : World) (e : Error) (r : Response) :
  prop_is_true (instance w) "useErrorHandler" = true ->
  f <> Authenticate ->
  engine_settles f server req options = (r, Rejected e) ->
  effects (run (middleware2 f server options req) w) =
    effects w ++ [Next (Some e); Next None].
Proof.
  intros Hi Hf Heng. unfold engine_settles in Heng.
  destruct f; [congruence | | |]; simpl in *; chain2; rewrite Heng; simpl;
    try destruct (instanceof_InvalidTokenError e); simpl;
    rewrite ?flag_on_adapter_keeps_switch, Hi; simpl;
    rewrite <- ?app_assoc; reflexivity.
Qed.

(** A token request refused through an adapter built with
    [useErrorHandler: true]. *)
Lemma second_copy_delegates_and_advances_twice_witness :
  effects (run (middleware2 Token (rejectAll bad) VUndefined aRequest)
             (fresh ∅ delegatingAdapter ∅))
  = [Next (Some bad); Next None].
Proof.
  refine (second_copy_delegates_and_advances_twice Token (rejectAll bad)
            VUndefined aRequest (fresh ∅ delegatingAdapter ∅) bad _
            eq_refl _ eq_refl); discriminate.
Defined.

(** X11. In the second copy authenticate still calls the error
    translator without a receiver (line 265), so the [useErrorHandler] of
    the adapter has no effect on this flow: on two adapters that differ
    in the value of [useErrorHandler] alone, and so carry the same
    [server], a request is handled in the same way. *)
Theorem second_copy_authenticate_ignores_useErrorHandler
  (server : NodeOAuthServer) (options : JSVal) (req : Request)
  (w : World) (v : JSVal) :
  let adapter' : Obj := <["useErrorHandler" := v]> (instance w) in
  adapter' !! "server" = instance w !! "server" /\
  run (SecondCopy.authenticate server options req) (with_instance adapter' w) =
  with_instance adapter' (run (SecondCopy.authenticate server options req) w).
Proof.
  simpl. split; [apply lookup_insert_ne; discriminate |].
  chain2.
  destruct (server_authenticate server req Response_new options)
    as [r [t | e]]; branches; reflexivity.
Qed.


